(** * vsketch_cli.utils: script loading, seeded execution, centering

    A shallow embedding of [vsketch_cli/utils.py].  Python code that reads
    or writes process-wide state (working directory, file system, the
    global random generators, the error channel) is a function from a
    [World] to an outcome and a new [World]; an exception keeps the world
    it left behind.  The arithmetic of the document (binary64 in the
    program) is an interface with two instances: binary64 itself, and
    exact rational numbers. *)

From Stdlib Require Import String Ascii List ZArith QArith Qminmax Qreduction Bool Lia.
From Stdlib Require Import DecimalString Floats.
Import ListNotations.
Open Scope string_scope.
Open Scope Z_scope.

(** ** Python values the module handles *)

(** [pathlib.Path], by its string form. *)
Definition Path := string.

(** [dir_path / name] for a relative [name]. *)
Definition joinpath (dir_path : Path) (name : string) : Path :=
  dir_path ++ "/" ++ name.

(** [str(index)] of a Python int. *)
Definition str (index : Z) : string :=
  NilZero.string_of_int (Z.to_int index).

(** Exceptions.  [SystemExit] and [KeyboardInterrupt] derive from
    [BaseException] only; the others derive from [Exception]. *)
Inductive PyException : Type :=
| SyntaxError (msg : string)
| RuntimeError (msg : string)
| OSError (msg : string)
| JSONDecodeError (msg : string)
| UnicodeDecodeError (msg : string)
| UserException (name msg : string)
| SystemExit (code : Z)
| KeyboardInterrupt.

Definition isinstance_Exception (e : PyException) : bool :=
  match e with
  | SystemExit _ | KeyboardInterrupt => false
  | _ => true
  end.

(** State of one randomness source.  Seeding replaces the state by one
    that the seed alone determines. *)
Inductive Rng : Type :=
| RngState (s : Z).

Definition seed_rng (seed : Z) : Rng := RngState seed.

(** What [typer.echo(..., err=True)] and [traceback.print_exc()] leave on
    the error channel. *)
Inductive Colour : Type := RED | GREEN.

Inductive Echo : Type :=
| Styled (fg : Colour) (bold : bool) (title_str detail_str : string)
| Traceback (e : PyException).

(** ** The process *)

Record World : Type := mkWorld {
  cwd : Path;                       (* the working directory, absolute *)
  path_exists : Path -> bool;       (* Path.exists() *)
  path_is_dir : Path -> bool;       (* Path.is_dir() *)
  read_text : Path -> option string;(* contents of a file that can be read as text *)
  read_error : Path -> PyException; (* what reading raises when it cannot *)
  py_random : Rng;                  (* the random module's generator *)
  np_random : Rng;                  (* numpy.random's generator *)
  entropy : Z;                      (* unseeded sources: clock, os.urandom *)
  stderr : list Echo
}.

Definition set_cwd (p : Path) (w : World) : World :=
  mkWorld p (path_exists w) (path_is_dir w) (read_text w) (read_error w)
          (py_random w) (np_random w) (entropy w) (stderr w).

Definition set_py_random (r : Rng) (w : World) : World :=
  mkWorld (cwd w) (path_exists w) (path_is_dir w) (read_text w) (read_error w)
          r (np_random w) (entropy w) (stderr w).

Definition set_np_random (r : Rng) (w : World) : World :=
  mkWorld (cwd w) (path_exists w) (path_is_dir w) (read_text w) (read_error w)
          (py_random w) r (entropy w) (stderr w).

Definition set_entropy (z : Z) (w : World) : World :=
  mkWorld (cwd w) (path_exists w) (path_is_dir w) (read_text w) (read_error w)
          (py_random w) (np_random w) z (stderr w).

Definition echo_err (e : Echo) (w : World) : World :=
  mkWorld (cwd w) (path_exists w) (path_is_dir w) (read_text w) (read_error w)
          (py_random w) (np_random w) (entropy w) (stderr w ++ [e])%list.

(** ** Computations: state and exceptions *)

Inductive Outcome (A : Type) : Type :=
| Returned (a : A)
| Raised (e : PyException).
Arguments Returned {A} a.
Arguments Raised {A} e.

Definition M (A : Type) : Type := World -> Outcome A * World.

Definition ret {A} (a : A) : M A := fun w => (Returned a, w).

Definition raise {A} (e : PyException) : M A := fun w => (Raised e, w).

Definition bind {A B} (c : M A) (k : A -> M B) : M B :=
  fun w =>
    match c w with
    | (Returned a, w') => k a w'
    | (Raised e, w') => (Raised e, w')
    end.

Notation "x <- c ;; k" := (bind c (fun x => k))
  (at level 61, c at next level, right associativity).
Notation "c ;;; k" := (bind c (fun _ => k))
  (at level 61, right associativity).

(** [try: body  except Exception: handler]. *)
Definition try_except_Exception {A} (body : M A) (handler : PyException -> M A) : M A :=
  fun w =>
    match body w with
    | (Returned a, w') => (Returned a, w')
    | (Raised e, w') =>
        if isinstance_Exception e then handler e w' else (Raised e, w')
    end.

(** A path that starts at the root. *)
Definition is_absolute (p : Path) : bool := String.prefix "/" p.

(** The path the operating system takes [p] for in a process whose
    working directory is [here]: an absolute path stands for itself, [.]
    for the working directory, any other path is taken from there.  Names
    are not interpreted further ([..] and links are left as they are). *)
Definition resolve_from (here p : Path) : Path :=
  if is_absolute p then p
  else if String.eqb p "." then here
  else joinpath here p.

(** [os.getcwd()]: fails when the working directory is gone. *)
Definition os_getcwd : M Path :=
  fun w =>
    if path_is_dir w (cwd w) then (Returned (cwd w), w)
    else (Raised (OSError "No such file or directory"), w).

(** [os.chdir(p)]: enters the directory [p] stands for, and fails when
    that is not a directory. *)
Definition os_chdir (p : Path) : M unit :=
  fun w =>
    let target := resolve_from (cwd w) p in
    if path_is_dir w target then (Returned tt, set_cwd target w)
    else (Raised (OSError "No such file or directory"), w).

(** ** print_error, print_info *)

Definition print_error (title_str detail_str : string) : M unit :=
  fun w => (Returned tt, echo_err (Styled RED true title_str detail_str) w).

Definition print_info (title_str detail_str : string) : M unit :=
  fun w => (Returned tt, echo_err (Styled GREEN true title_str detail_str) w).

Definition traceback_print_exc (e : PyException) : M unit :=
  fun w => (Returned tt, echo_err (Traceback e) w).

(** ** os.path.splitext *)

(** [p.rfind(c)], [-1] when [c] does not occur; [i] is the index of the
    head of [p]. *)
Fixpoint rfind_from (c : ascii) (p : string) (i : Z) : Z :=
  match p with
  | EmptyString => -1
  | String a rest =>
      let j := rfind_from c rest (i + 1) in
      if 0 <=? j then j else if Ascii.eqb a c then i else -1
  end.

Definition rfind (p : string) (c : ascii) : Z := rfind_from c p 0.

(** The scan over the leading dots of the last component: [true] as soon
    as one of the [n] characters from [filenameIndex] on is not a dot. *)
Fixpoint has_non_dot (p : string) (filenameIndex : nat) (n : nat) : bool :=
  match n with
  | O => false
  | S n' =>
      match String.get filenameIndex p with
      | Some a =>
          if Ascii.eqb a "."%char then has_non_dot p (S filenameIndex) n' else true
      | None => true
      end
  end.

Definition splitext (p : string) : string * string :=
  let sepIndex := rfind p "/"%char in
  let dotIndex := rfind p "."%char in
  if sepIndex <? dotIndex then
    if has_non_dot p (Z.to_nat (sepIndex + 1)) (Z.to_nat (dotIndex - (sepIndex + 1)))
    then (substring 0 (Z.to_nat dotIndex) p,
          substring (Z.to_nat dotIndex) (String.length p - Z.to_nat dotIndex) p)
    else (p, "")
  else (p, "").

(** ** find_unique_path *)

(** The [while True] loop; [fuel] bounds the number of iterations and
    [None] means the bound was reached. *)
Fixpoint find_unique_loop (fuel : nat) (exists_ : Path -> bool)
    (base_name ext : string) (dir_path : Path) (always_number : bool)
    (name : string) (index : Z) : option Path :=
  match fuel with
  | O => None
  | S fuel' =>
      let name := if always_number then base_name ++ "_" ++ str index else name in
      let path := joinpath dir_path (name ++ ext) in
      if negb (exists_ path) then Some path
      else
        let name := if negb always_number then base_name ++ "_" ++ str index else name in
        find_unique_loop fuel' exists_ base_name ext dir_path always_number name (index + 1)
  end.

Definition find_unique_path (fuel : nat) (filename : string) (dir_path : Path)
    (always_number : bool) (w : World) : option Path :=
  let '(base_name, ext) := splitext filename in
  let name := base_name in
  let index := if always_number then 1 else 2 in
  find_unique_loop fuel (path_exists w) base_name ext dir_path always_number name index.

(** The candidate carrying suffix [_i]. *)
Definition numbered (filename : string) (dir_path : Path) (i : Z) : Path :=
  joinpath dir_path
    ((fst (splitext filename) ++ "_" ++ str i) ++ snd (splitext filename)).

(** ** working_directory *)

(** [try: body  finally: cleanup].  The cleanup runs on both exits of
    [body]; an exception of the cleanup itself replaces the outcome. *)
Definition try_finally {A} (body : M A) (cleanup : M unit) : M A :=
  fun w =>
    match body w with
    | (r, w') =>
        match cleanup w' with
        | (Returned _, w'') => (r, w'')
        | (Raised e, w'') => (Raised e, w'')
        end
    end.

(** [with working_directory(path): body]. *)
Definition working_directory {A} (path : Path) (body : M A) : M A :=
  prev_cwd <- os_getcwd ;;
  os_chdir path ;;;
  try_finally body (os_chdir prev_cwd).

(** ** Two processes compared *)

(** Two processes in the same environment: they agree on everything but
    the randomness sources. *)
Definition same_environment (w1 w2 : World) : Prop :=
  cwd w1 = cwd w2 /\ path_exists w1 = path_exists w2 /\
  path_is_dir w1 = path_is_dir w2 /\ read_text w1 = read_text w2 /\
  read_error w1 = read_error w2 /\ stderr w1 = stderr w2.

(** Same environment and same state of the two process-wide seeded
    sources; only the unseeded ones may differ. *)
Definition same_seeded (w1 w2 : World) : Prop :=
  same_environment w1 w2 /\
  py_random w1 = py_random w2 /\ np_random w1 = np_random w2.

(** Two runs agree: both return, with related values, or both raise the
    same exception; either way the processes they leave are related. *)
Definition agree {A} (RA : A -> A -> Prop) (RW : World -> World -> Prop)
    (r1 r2 : Outcome A * World) : Prop :=
  match r1, r2 with
  | (Returned a1, w1), (Returned a2, w2) => RA a1 a2 /\ RW w1 w2
  | (Raised e1, w1), (Raised e2, w2) => e1 = e2 /\ RW w1 w2
  | _, _ => False
  end.

(** ** Entering and leaving a directory *)

(** [os.chdir(p)] would succeed in [w]. *)
Definition can_enter (w : World) (p : Path) : bool :=
  path_is_dir w (resolve_from (cwd w) p).

(** The process after [os.chdir(p)] has succeeded. *)
Definition entered (p : Path) (w : World) : World :=
  set_cwd (resolve_from (cwd w) p) w.

(** ** The arithmetic of the document *)

(** What the module computes with: the document's coordinates and the
    page size.  [num_half x] is [x / 2.0]. *)
Class Arith : Type := {
  num : Type;
  num_add : num -> num -> num;
  num_sub : num -> num -> num;
  num_half : num -> num;
  num_min : num -> num -> num;
  num_max : num -> num -> num
}.

(** The program's arithmetic: IEEE 754 binary64, every operation
    rounded. *)
Definition binary64 : Arith := {|
  num := float;
  num_add := PrimFloat.add;
  num_sub := PrimFloat.sub;
  num_half := fun x => PrimFloat.div x 2%float;
  num_min := fun x y => if PrimFloat.ltb y x then y else x;
  num_max := fun x y => if PrimFloat.ltb x y then y else x
|}.

(** Exact arithmetic on rational numbers.  Sums are kept in lowest terms,
    so that equal coordinates are equal terms. *)
Definition exact : Arith := {|
  num := Q;
  num_add := fun x y => Qred (x + y);
  num_sub := Qminus;
  num_half := fun x => (x / 2)%Q;
  num_min := Qmin;
  num_max := Qmax
|}.

(** The rational number a finite binary64 value is. *)
Definition spec_float_to_Q (s : SpecFloat.spec_float) : Q :=
  match s with
  | SpecFloat.S754_finite negative m e =>
      let v := if 0 <=? e then inject_Z (Z.pos m * 2 ^ e)
               else (Z.pos m # Pos.pow 2 (Z.to_pos (- e)))%Q in
      if negative then Qopp v else v
  | _ => 0%Q
  end.

Definition binary64_to_Q (x : float) : Q := spec_float_to_Q (Prim2SF x).

(** ** The document and the sketch instance *)

Section Model.

Context {ar : Arith}.

Definition Point : Type := num * num.

(** (min-x, min-y, max-x, max-y). *)
Definition Bounds : Type := num * num * num * num.

(** Modelled from the spec: the Document type is not part of this module.
    It accumulates drawn geometry (here: polylines), has an optional page
    size (width, height), a bounds query over its geometry that is
    undefined for an empty document, and an additive global translation. *)
Record Document : Type := mkDocument {
  page_size : option (num * num);
  lines : list (list Point)
}.

Fixpoint bounds_of_points (l : list Point) : option Bounds :=
  match l with
  | [] => None
  | (x, y) :: rest =>
      match bounds_of_points rest with
      | None => Some (x, y, x, y)
      | Some (minx, miny, maxx, maxy) =>
          Some (num_min x minx, num_min y miny, num_max x maxx, num_max y maxy)
      end
  end.

Definition bounds (d : Document) : option Bounds :=
  bounds_of_points (concat (lines d)).

Definition translate_point (dx dy : num) (p : Point) : Point :=
  (num_add (fst p) dx, num_add (snd p) dy).

Definition translate (dx dy : num) (d : Document) : Document :=
  mkDocument (page_size d) (map (map (translate_point dx dy)) (lines d)).

(** A rectangle moved by (dx, dy). *)
Definition translate_bounds (dx dy : num) (b : Bounds) : Bounds :=
  let '(b0, b1, b2, b3) := b in
  (num_add b0 dx, num_add b1 dy, num_add b2 dx, num_add b3 dy).

(** Modelled from the spec: a sketch instance is a mutable drawing
    context: its two randomness sources, the [centered] flag, the
    accumulating document, and whatever attributes user code sets. *)
Record Vsketch : Type := mkVsketch {
  vsk_random : Rng;
  vsk_noise : Rng;
  centered : bool;
  document : Document;
  attributes : list Z
}.

Definition randomSeed (seed : Z) (vsk : Vsketch) : Vsketch :=
  mkVsketch (seed_rng seed) (vsk_noise vsk) (centered vsk) (document vsk) (attributes vsk).

Definition noiseSeed (seed : Z) (vsk : Vsketch) : Vsketch :=
  mkVsketch (vsk_random vsk) (seed_rng seed) (centered vsk) (document vsk) (attributes vsk).

Definition set_document (d : Document) (vsk : Vsketch) : Vsketch :=
  mkVsketch (vsk_random vsk) (vsk_noise vsk) (centered vsk) d (attributes vsk).

Definition random_seed (seed : Z) : M unit :=
  fun w => (Returned tt, set_py_random (seed_rng seed) w).

Definition np_random_seed (seed : Z) : M unit :=
  fun w => (Returned tt, set_np_random (seed_rng seed) w).

(** Modelled from the spec: a sketch definition is a class with a
    no-argument constructor, a [draw] and a [finalize] procedure (both
    mutate the instance and the process, and may raise), and the home
    directory attached to the type once it has been discovered. *)
Record SketchClass : Type := mkSketchClass {
  class_name : string;
  vsketch_cwd : option Path;            (* __vsketch_cwd__ *)
  construct : M (option Vsketch);       (* sketch_class() *)
  draw_method : Vsketch -> M Vsketch;   (* vsk.draw() *)
  finalize_method : Vsketch -> M Vsketch(* vsk.finalize() *)
}.

Definition set_vsketch_cwd (p : Path) (cls : SketchClass) : SketchClass :=
  mkSketchClass (class_name cls) (Some p) (construct cls)
                (draw_method cls) (finalize_method cls).

(** What a script can bind at top level. *)
Inductive PyObject : Type :=
| OtherObject (repr : string)
| OtherClass (name : string)
| VsketchClass (cls : SketchClass).

Definition inspect_isclass (o : PyObject) : bool :=
  match o with
  | OtherObject _ => false
  | _ => true
  end.

Definition issubclass_Vsketch (o : PyObject) : bool :=
  match o with
  | VsketchClass _ => true
  | _ => false
  end.

(** The dict [run_path] returns, in insertion order. *)
Definition Namespace : Type := list (string * PyObject).

Definition values (ns : Namespace) : list PyObject := map snd ns.

(** ** load_sketch_class *)

(** [Path.parent]. *)
Definition parent (p : Path) : Path :=
  let i := rfind p "/"%char in
  if i <? 0 then "." else if i =? 0 then "/" else substring 0 (Z.to_nat i) p.

(** [inspect.isclass(cls) and issubclass(cls, vsketch.Vsketch)]. *)
Definition is_sketch_definition (cls : PyObject) : bool :=
  inspect_isclass cls && issubclass_Vsketch cls.

(** The [for cls in sketch_scripts.values()] loop.  Only a
    [VsketchClass] passes the test, so the inner fall-through is never
    taken. *)
Fixpoint first_sketch_class (cwd_path : Path) (objs : list PyObject) : option SketchClass :=
  match objs with
  | [] => None
  | cls :: rest =>
      if is_sketch_definition cls then
        match cls with
        | VsketchClass c => Some (set_vsketch_cwd cwd_path c)
        | _ => first_sketch_class cwd_path rest
        end
      else first_sketch_class cwd_path rest
  end.

Definition resolve_cwd_path (path : Path) (w : World) : Path :=
  let cwd_path := path in
  if negb (path_is_dir w cwd_path) then parent cwd_path else cwd_path.

(** [run_path] is the behaviour of the script at [path]: what running it
    does to the process and the namespace it leaves. *)
Definition load_sketch_class (run_path : Path -> M Namespace) (path : Path)
    : M (option SketchClass) :=
  fun w =>
    let cwd_path := resolve_cwd_path path w in
    (loaded <- try_except_Exception
                 (sketch_scripts <- working_directory cwd_path (run_path path) ;;
                  ret (Some sketch_scripts))
                 (fun e =>
                    traceback_print_exc e ;;;
                    print_error "Could not load script due to previous error." "" ;;;
                    ret None) ;;
     match loaded with
     | None => ret None
     | Some sketch_scripts => ret (first_sketch_class cwd_path (values sketch_scripts))
     end) w.

(** ** execute_sketch *)

Definition seed_all (seed : option Z) (vsk : Vsketch) : M Vsketch :=
  match seed with
  | Some seed =>
      let vsk := randomSeed seed vsk in
      let vsk := noiseSeed seed vsk in
      random_seed seed ;;;
      np_random_seed seed ;;;
      ret vsk
  | None => ret vsk
  end.

(** The body of the [with working_directory(cwd)] block; [None] is the
    early [return None]. *)
Definition execute_scoped (sketch_class : SketchClass) (seed : option Z)
    (finalize : bool) : M (option Vsketch) :=
  vsk <- construct sketch_class ;;
  match vsk with
  | None => ret None
  | Some vsk =>
      vsk <- seed_all seed vsk ;;
      vsk <- draw_method sketch_class vsk ;;
      vsk <- (if finalize then finalize_method sketch_class vsk else ret vsk) ;;
      ret (Some vsk)
  end.

Definition centering_offset (size : num * num) (b : Bounds) : num * num :=
  let '(width, height) := size in
  let '(b0, b1, b2, b3) := b in
  (num_sub (num_half (num_sub width (num_sub b2 b0))) b0,
   num_sub (num_half (num_sub height (num_sub b3 b1))) b1).

(** The block after the [with]: the document of the instance is moved in
    place. *)
Definition apply_centering (vsk : Vsketch) : Vsketch :=
  if centered vsk then
    match page_size (document vsk) with
    | Some size =>
        match bounds (document vsk) with
        | Some b =>
            let '(dx, dy) := centering_offset size b in
            set_document (translate dx dy (document vsk)) vsk
        | None => vsk
        end
    | None => vsk
    end
  else vsk.

(** [getattr(sketch_class, "__vsketch_cwd__", default)]. *)
Definition getattr_vsketch_cwd (sketch_class : SketchClass) (default : Path) : Path :=
  match vsketch_cwd sketch_class with
  | Some p => p
  | None => default
  end.

Definition execute_sketch (sketch_class : option SketchClass) (seed : option Z)
    (finalize : bool) : M (option Vsketch) :=
  match sketch_class with
  | None => ret None
  | Some sketch_class =>
      default <- os_getcwd ;;
      let cwd := getattr_vsketch_cwd sketch_class default in
      vsk <- working_directory cwd (execute_scoped sketch_class seed finalize) ;;
      match vsk with
      | None => ret None
      | Some vsk => ret (Some (apply_centering vsk))
      end
  end.

(** A class that differs from [cls] in its [finalize] only. *)
Definition with_finalize (fin : Vsketch -> M Vsketch) (cls : SketchClass) : SketchClass :=
  mkSketchClass (class_name cls) (vsketch_cwd cls) (construct cls)
                (draw_method cls) fin.

(** A class that differs from [cls] in its [draw] and [finalize] only. *)
Definition with_procedures (drw fin : Vsketch -> M Vsketch) (cls : SketchClass)
    : SketchClass :=
  mkSketchClass (class_name cls) (vsketch_cwd cls) (construct cls) drw fin.

(** The base constructor: an empty document without page size, centred,
    the two sources started from whatever the process offers. *)
Definition new_vsketch : M (option Vsketch) :=
  fun w =>
    (Returned (Some (mkVsketch (RngState (entropy w)) (RngState (entropy w + 1))
                               true (mkDocument None []) [])), w).

Definition size (width height : num) (vsk : Vsketch) : Vsketch :=
  set_document (mkDocument (Some (width, height)) (lines (document vsk))) vsk.

Definition add_line (l : list Point) (vsk : Vsketch) : Vsketch :=
  set_document (mkDocument (page_size (document vsk)) (lines (document vsk) ++ [l])%list) vsk.

Definition rect (x0 y0 x1 y1 : num) : list Point :=
  [(x0, y0); (x1, y0); (x1, y1); (x0, y1); (x0, y0)].

(** ** Reproducibility: what two runs may and may not differ in *)

(** Two fresh instances that differ at most in their own two sources. *)
Definition same_but_rng (o1 o2 : option Vsketch) : Prop :=
  match o1, o2 with
  | None, None => True
  | Some v1, Some v2 =>
      centered v1 = centered v2 /\ document v1 = document v2 /\
      attributes v1 = attributes v2
  | _, _ => False
  end.

(** A procedure of the sketch consumes randomness only through the four
    seeded sources: started on the same instance in processes that agree
    on all but the unseeded sources, it does the same. *)
Definition seeded_only (proc : Vsketch -> M Vsketch) : Prop :=
  forall vsk w1 w2,
    same_seeded w1 w2 -> agree eq same_seeded (proc vsk w1) (proc vsk w2).

(** The constructor runs before any seeding, so it must not depend on the
    state of any randomness source, seeded or not: whatever those states
    are, it builds the same instance up to the instance's own two
    sources, and acts on the environment in the same way. *)
Definition construct_seeded_only (cls : SketchClass) : Prop :=
  forall w1 w2,
    same_environment w1 w2 ->
    agree same_but_rng same_environment (construct cls w1) (construct cls w2).

(** Both runs return nothing, or both raise the same exception, or both
    return an instance and the two documents are equal. *)
Definition same_geometry (r1 r2 : Outcome (option Vsketch)) : Prop :=
  match r1, r2 with
  | Returned None, Returned None => True
  | Returned (Some v1), Returned (Some v2) => document v1 = document v2
  | Raised e1, Raised e2 => e1 = e2
  | _, _ => False
  end.

End Model.
(** ** load_config *)

#[local] Unset Elimination Schemes.
Inductive Json : Type :=
| JNull
| JBool (b : bool)
| JNumber (q : Q)
| JString (s : string)
| JArray (items : list Json)
| JObject (members : list (string * Json)).
#[local] Set Elimination Schemes.

(** [open(path, "r")] followed by reading the whole file: the text, or
    the error the process raises for this path (an [OSError] of [open],
    a [UnicodeDecodeError] of the read). *)
Definition open_read (path : Path) : M string :=
  fun w =>
    match read_text w path with
    | Some text => (Returned text, w)
    | None => (Raised (read_error w path), w)
    end.

(** [json_loads] is the JSON decoder: the parsed value, or the error it
    raises. *)
Definition load_config (json_loads : string -> Outcome Json) (path : Path) : M Json :=
  text <- open_read path ;;
  param_set <- (fun w => (json_loads text, w)) ;;
  ret param_set.

(** ** remove_prefix, remove_postfix, canonical_name *)

(** [len(s)]. *)
Definition len (s : string) : Z := Z.of_nat (String.length s).

(** [s[start:]]: a negative bound counts from the end, and bounds are
    clipped to the string. *)
Definition slice_from (s : string) (start : Z) : string :=
  let a := if start <? 0 then Z.max 0 (start + len s) else Z.min start (len s) in
  substring (Z.to_nat a) (Z.to_nat (len s - a)) s.

(** [s[:stop]]. *)
Definition slice_to (s : string) (stop : Z) : string :=
  let b := if stop <? 0 then Z.max 0 (stop + len s) else Z.min stop (len s) in
  substring 0 (Z.to_nat b) s.

(** [s.startswith(prefix)]. *)
Definition startswith (s prefix : string) : bool := String.prefix prefix s.

(** [s.endswith(postfix)]. *)
Definition endswith (s postfix : string) : bool :=
  (String.length postfix <=? String.length s)%nat &&
  String.eqb (substring (String.length s - String.length postfix)
                        (String.length postfix) s) postfix.

Definition remove_prefix (s prefix : string) : string :=
  if startswith s prefix then slice_from s (len prefix) else s.

Definition remove_postfix (s postfix : string) : string :=
  if endswith s postfix then slice_to s (- len postfix) else s.

(** [path.name]: the last component. *)
Definition path_name (path : Path) : string :=
  slice_from path (rfind path "/"%char + 1).

Definition canonical_name (path : Path) : string :=
  remove_postfix (remove_prefix (path_name path) "sketch_") ".py".

(** The first candidate of collision-only mode. *)
Definition unsuffixed (filename : string) (dir_path : Path) : Path :=
  joinpath dir_path (fst (splitext filename) ++ snd (splitext filename)).

(** ** get_config_path *)

(** The process after directory [p] has been created. *)
Definition add_directory (p : Path) (w : World) : World :=
  mkWorld (cwd w)
          (fun q => if String.eqb q p then true else path_exists w q)
          (fun q => if String.eqb q p then true else path_is_dir w q)
          (read_text w) (read_error w)
          (py_random w) (np_random w) (entropy w) (stderr w).

(** [Path.mkdir()] without [parents] or [exist_ok]: it fails when the path
    exists already and when the parent is not a directory. *)
Definition path_mkdir (p : Path) : M unit :=
  fun w =>
    if path_exists w p then (Raised (OSError "File exists"), w)
    else if negb (path_is_dir w (parent p))
         then (Raised (OSError "No such file or directory"), w)
         else (Returned tt, add_directory p w).

Definition get_config_path (path : Path) : M Path :=
  fun w =>
    let config_path := joinpath (parent path) "config" in
    ((if negb (path_exists w config_path)
      then path_mkdir config_path
      else ret tt) ;;;
     ret config_path) w.

(** ** Concrete processes and sketches used to run the definitions *)

(** A process in the existing directory [/home/user] whose file system
    holds, besides it, exactly the paths [files], the directories among
    them being [dirs]. *)
Definition world_with (files dirs : list Path) : World :=
  mkWorld "/home/user"
          (fun p => String.eqb p "/home/user" || existsb (String.eqb p) files)
          (fun p => String.eqb p "/home/user" || existsb (String.eqb p) dirs)
          (fun _ => None)
          (fun _ => OSError "No such file or directory")
          (RngState 0) (RngState 0) 0 [].

(** The same process with one readable file. *)
Definition world_with_file (path : Path) (text : string) : World :=
  mkWorld "/home/user"
          (fun p => String.eqb p "/home/user" || String.eqb p path)
          (fun p => String.eqb p "/home/user")
          (fun p => if String.eqb p path then Some text else None)
          (fun _ => OSError "No such file or directory")
          (RngState 0) (RngState 0) 0 [].


(** A decoder for the JSON texts that are one literal or an empty
    container. *)
Definition json_literal (text : string) : Outcome Json :=
  if String.eqb text "null" then Returned JNull
  else if String.eqb text "true" then Returned (JBool true)
  else if String.eqb text "false" then Returned (JBool false)
  else if String.eqb text "[]" then Returned (JArray [])
  else if String.eqb text "{}" then Returned (JObject [])
  else Raised (JSONDecodeError "Expecting value").

(** A sketch that sets a 100 x 100 page and draws one rectangle from
    (10,10) to (30,50). *)
Definition rect_sketch : @SketchClass exact :=
  mkSketchClass "RectSketch" None new_vsketch
    (fun vsk => ret (add_line (@rect exact (10#1) (10#1) (30#1) (50#1))%Q
                       (@size exact (100#1)%Q (100#1)%Q vsk)))
    (fun vsk => ret vsk).

#[local] Set Warnings "-inexact-float".

(** The same in the program's arithmetic, on a 1 x 1 page with the
    rectangle from (0.1,0.1) to (0.3,0.3); as in Python, a decimal
    literal stands for the nearest binary64 value. *)
Definition small_rect_sketch : @SketchClass binary64 :=
  mkSketchClass "SmallRectSketch" None new_vsketch
    (fun vsk => ret (add_line (@rect binary64 0.1 0.1 0.3 0.3)%float
                       (@size binary64 1%float 1%float vsk)))
    (fun vsk => ret vsk).

(** The 100 x 100 page and the rectangle from (10,10) to (30,50) in the
    program's arithmetic. *)
Definition rect_sketch_binary64 : @SketchClass binary64 :=
  mkSketchClass "RectSketch" None new_vsketch
    (fun vsk => ret (add_line (@rect binary64 10 10 30 50)%float
                       (@size binary64 100%float 100%float vsk)))
    (fun vsk => ret vsk).

(** A sketch whose [draw] raises. *)
Definition failing_sketch : @SketchClass exact :=
  mkSketchClass "FailingSketch" None new_vsketch
    (fun vsk => raise (UserException "ValueError" "bad parameter"))
    (fun vsk => ret vsk).



(** A script that binds a string, a helper class, then two sketch
    classes. *)
Definition two_sketch_script : Path -> M (@Namespace exact) :=
  fun _ =>
    ret [("__name__", OtherObject "<run_path>");
         ("Helper", OtherClass "Helper");
         ("RectSketch", VsketchClass rect_sketch);
         ("FailingSketch", VsketchClass failing_sketch)].

(** A script whose top-level code raises [e]. *)
Definition raising_script (e : PyException) : Path -> M (@Namespace exact) :=
  fun _ => raise e.

(** A sketch that draws from its own source and from numpy's: one
    segment whose end point is read off the two generator states, both of
    which advance. *)
Definition dice_sketch : @SketchClass exact :=
  mkSketchClass "DiceSketch" None new_vsketch
    (fun vsk w =>
       match vsk_random vsk, np_random w with
       | RngState a, RngState b =>
           (Returned
              (@add_line exact [(0#1, 0#1)%Q; (inject_Z a, inject_Z b)]
                 (mkVsketch (RngState (a + 1)) (vsk_noise vsk) (centered vsk)
                            (document vsk) (attributes vsk))),
            set_np_random (RngState (b + 1)) w)
       end)
    (fun vsk => ret vsk).

(** A sketch whose [draw] is a fixed rectangle and whose [finalize] adds a
    segment that ends at an unseeded value (the clock, say). *)
Definition clock_sketch : @SketchClass exact :=
  mkSketchClass "ClockSketch" None new_vsketch
    (fun vsk => ret (add_line (@rect exact (10#1) (10#1) (30#1) (50#1))%Q
                       (@size exact (100#1)%Q (100#1)%Q vsk)))
    (fun vsk w =>
       (Returned (@add_line exact [(0#1, 0#1)%Q; (inject_Z (entropy w), 0#1)%Q] vsk),
        w)).

(** Componentwise equality of two rectangles as rational numbers. *)
Definition Bounds_eq (a b : @Bounds exact) : Prop :=
  let '(a0, a1, a2, a3) := a in
  let '(b0, b1, b2, b3) := b in
  (a0 == b0 /\ a1 == b1 /\ a2 == b2 /\ a3 == b3)%Q.

(** * Properties *)

(** ** Small checks of the library models *)

Example splitext_svg : splitext "sketch.svg" = ("sketch", ".svg").
Proof. reflexivity. Qed.

Example splitext_hidden : splitext ".bashrc" = (".bashrc", "").
Proof. reflexivity. Qed.

Example splitext_dir : splitext "a.b/c" = ("a.b/c", "").
Proof. reflexivity. Qed.

Example str_12 : str 12 = "12".
Proof. reflexivity. Qed.

(** ** working_directory *)


(** The scope, step by step: [os.getcwd()], [os.chdir(path)], the body,
    and [os.chdir(prev_cwd)] in the [finally] clause, whose failure
    replaces the outcome of the body. *)
Lemma working_directory_run :
  forall (A : Type) (path : Path) (body : M A) (w : World),
    working_directory path body w =
    if path_is_dir w (cwd w) then
      if can_enter w path then
        let r := body (entered path w) in
        if can_enter (snd r) (cwd w)
        then (fst r, entered (cwd w) (snd r))
        else (Raised (OSError "No such file or directory"), snd r)
      else (Raised (OSError "No such file or directory"), w)
    else (Raised (OSError "No such file or directory"), w).
Proof.
  intros A path body w.
  unfold working_directory, bind, os_getcwd, os_chdir, try_finally, can_enter, entered.
  destruct (path_is_dir w (cwd w)); [|reflexivity].
  destruct (path_is_dir w (resolve_from (cwd w) path)); [|reflexivity].
  cbv zeta.
  destruct (body (set_cwd (resolve_from (cwd w) path) w)) as [r w2]. cbn [fst snd].
  destruct (path_is_dir w2 (resolve_from (cwd w2) (cwd w))); [|reflexivity].
  destruct r; reflexivity.
Qed.


(** A scope that returned was entered, its body returned, and the
    previous directory was entered again. *)
Lemma working_directory_returned :
  forall (A : Type) (path : Path) (body : M A) (w w' : World) (a : A),
    working_directory path body w = (Returned a, w') ->
    exists w2,
      body (entered path w) = (Returned a, w2) /\ w' = entered (cwd w) w2.
Proof.
  intros A path body w w' a H.
  rewrite working_directory_run in H.
  destruct (path_is_dir w (cwd w)); [|discriminate H].
  destruct (can_enter w path); [|discriminate H].
  cbv zeta in H.
  destruct (body (entered path w)) as [r w2]. cbn [fst snd] in H.
  destruct (can_enter w2 (cwd w)); [|discriminate H].
  inversion H; subst. exists w2. split; reflexivity.
Qed.




(** ** find_unique_path *)

(** One iteration of the loop. *)
Lemma find_unique_loop_step :
  forall fuel ex base ext dir always name index,
    find_unique_loop (S fuel) ex base ext dir always name index =
    let tried := if always then base ++ "_" ++ str index else name in
    if ex (joinpath dir (tried ++ ext))
    then find_unique_loop fuel ex base ext dir always
           (if always then tried else base ++ "_" ++ str index) (index + 1)
    else Some (joinpath dir (tried ++ ext)).
Proof.
  intros fuel ex base ext dir always name index.
  change (find_unique_loop (S fuel) ex base ext dir always name index)
    with (let name' := if always then base ++ "_" ++ str index else name in
          let path := joinpath dir (name' ++ ext) in
          if negb (ex path) then Some path
          else
            let name'' :=
              if negb always then base ++ "_" ++ str index else name' in
            find_unique_loop fuel ex base ext dir always name'' (index + 1)).
  cbv zeta.
  destruct always;
    match goal with |- context [negb (ex ?p)] => destruct (ex p) end;
    reflexivity.
Qed.

Lemma find_unique_loop_mono :
  forall fuel ex base ext dir always name index path,
    find_unique_loop fuel ex base ext dir always name index = Some path ->
    forall fuel', (fuel <= fuel')%nat ->
      find_unique_loop fuel' ex base ext dir always name index = Some path.
Proof.
  induction fuel as [|fuel IH]; intros ex base ext dir always name index path H fuel' Hle.
  - discriminate.
  - destruct fuel' as [|fuel']; [lia|].
    rewrite find_unique_loop_step in *. cbv zeta in *.
    match goal with |- context [if ex ?p then _ else _] => destruct (ex p) end.
    + eapply IH; [exact H | lia].
    + exact H.
Qed.

Lemma find_unique_loop_sound :
  forall fuel ex base ext dir always name index path,
    find_unique_loop fuel ex base ext dir always name index = Some path ->
    ex path = false.
Proof.
  induction fuel as [|fuel IH]; intros ex base ext dir always name index path H.
  - discriminate.
  - rewrite find_unique_loop_step in H. cbv zeta in H.
    match type of H with context [if ex ?p then _ else _] => destruct (ex p) eqn:E end.
    + eapply IH; exact H.
    + inversion H; subst. exact E.
Qed.

(** Always-numbered mode: from [index] on, at most [k] candidates exist. *)
Lemma find_unique_loop_numbered_halts :
  forall (k : nat) ex base ext dir name index,
    (forall i, index + Z.of_nat k <= i ->
       ex (joinpath dir ((base ++ "_" ++ str i) ++ ext)) = false) ->
    exists path,
      find_unique_loop (S k) ex base ext dir true name index = Some path.
Proof.
  induction k as [|k IH]; intros ex base ext dir name index Hfree;
    rewrite find_unique_loop_step; cbv zeta.
  - rewrite Hfree by lia. eauto.
  - destruct (ex (joinpath dir ((base ++ "_" ++ str index) ++ ext))).
    + apply IH. intros i Hi. apply Hfree. lia.
    + eauto.
Qed.

(** Collision-only mode after the first collision: the loop is entered
    with the name suffixed by [index - 1]. *)
Lemma find_unique_loop_collision_halts :
  forall (k : nat) ex base ext dir index,
    (forall i, index - 1 + Z.of_nat k <= i ->
       ex (joinpath dir ((base ++ "_" ++ str i) ++ ext)) = false) ->
    exists path,
      find_unique_loop (S k) ex base ext dir false
        (base ++ "_" ++ str (index - 1)) index = Some path.
Proof.
  induction k as [|k IH]; intros ex base ext dir index Hfree;
    rewrite find_unique_loop_step; cbv zeta.
  - rewrite Hfree by lia. eauto.
  - destruct (ex (joinpath dir ((base ++ "_" ++ str (index - 1)) ++ ext))).
    + specialize (IH ex base ext dir (index + 1)).
      replace (index + 1 - 1) with index in IH by lia.
      apply IH. intros i Hi. apply Hfree. lia.
    + eauto.
Qed.

(** C9: when only finitely many suffixed candidates exist, the loop ends:
    some number of iterations suffices, any larger bound gives the same
    path, and that path does not exist. *)
Theorem find_unique_path_terminates :
  forall (filename : string) (dir_path : Path) (always_number : bool) (w : World),
    (exists n, forall i, n <= i ->
       path_exists w (numbered filename dir_path i) = false) ->
    exists fuel path,
      (forall fuel', (fuel <= fuel')%nat ->
         find_unique_path fuel' filename dir_path always_number w = Some path) /\
      path_exists w path = false.
Proof.
  intros filename dir_path always_number w [n Hn].
  unfold numbered in Hn. unfold find_unique_path.
  destruct (splitext filename) as [base ext]. cbn [fst snd] in Hn.
  destruct always_number.
  - destruct (find_unique_loop_numbered_halts (Z.to_nat (n - 1))
                (path_exists w) base ext dir_path base 1) as [path Hp].
    { intros i Hi. apply Hn. lia. }
    exists (S (Z.to_nat (n - 1))), path. split.
    + intros fuel' Hle. eapply find_unique_loop_mono; eauto.
    + eapply find_unique_loop_sound; eauto.
  - destruct (path_exists w (joinpath dir_path (base ++ ext))) eqn:E.
    + destruct (find_unique_loop_collision_halts (Z.to_nat (n - 2))
                  (path_exists w) base ext dir_path 3) as [path Hp].
      { intros i Hi. apply Hn. lia. }
      exists (S (S (Z.to_nat (n - 2)))), path. split.
      * intros fuel' Hle.
        eapply find_unique_loop_mono; [|exact Hle].
        rewrite find_unique_loop_step. cbv zeta. rewrite E.
        exact Hp.
      * eapply find_unique_loop_sound; eauto.
    + exists 1%nat, (joinpath dir_path (base ++ ext)). split; [|exact E].
      intros fuel' Hle. eapply find_unique_loop_mono; [|exact Hle].
      rewrite find_unique_loop_step. cbv zeta. rewrite E. reflexivity.
Qed.

(** C5: for [sketch.svg], collision-only mode returns [dir/sketch.svg]
    when that path is free, always-numbered mode returns
    [dir/sketch_1.svg] when that path is free, and collision-only mode
    returns [dir/sketch_2.svg] when [dir/sketch.svg] exists and
    [dir/sketch_2.svg] is free. *)
Theorem find_unique_path_sketch_svg :
  forall (dir : Path) (w : World) (fuel : nat),
    (2 <= fuel)%nat ->
    (path_exists w (joinpath dir "sketch.svg") = false ->
     find_unique_path fuel "sketch.svg" dir false w
       = Some (joinpath dir "sketch.svg")) /\
    (path_exists w (joinpath dir "sketch_1.svg") = false ->
     find_unique_path fuel "sketch.svg" dir true w
       = Some (joinpath dir "sketch_1.svg")) /\
    (path_exists w (joinpath dir "sketch.svg") = true ->
     path_exists w (joinpath dir "sketch_2.svg") = false ->
     find_unique_path fuel "sketch.svg" dir false w
       = Some (joinpath dir "sketch_2.svg")).
Proof.
  intros dir w fuel Hfuel.
  destruct fuel as [|[|fuel]]; try lia.
  unfold find_unique_path.
  change (splitext "sketch.svg") with ("sketch", ".svg").
  cbv iota beta.
  repeat split.
  - intros H. rewrite find_unique_loop_step. cbv zeta.
    change ("sketch" ++ ".svg") with "sketch.svg".
    rewrite H. reflexivity.
  - intros H. rewrite find_unique_loop_step. cbv zeta.
    change (("sketch" ++ "_" ++ str 1) ++ ".svg") with "sketch_1.svg".
    rewrite H. reflexivity.
  - intros H1 H2. rewrite !find_unique_loop_step. cbv zeta.
    change ("sketch" ++ ".svg") with "sketch.svg".
    rewrite H1.
    change (("sketch" ++ "_" ++ str 2) ++ ".svg") with "sketch_2.svg".
    rewrite H2. reflexivity.
Qed.

(** The three cases on actual directories: an empty one, and one that
    holds [sketch.svg]. *)
Lemma find_unique_path_sketch_svg_witness :
  find_unique_path 2 "sketch.svg" "out" false (world_with [] [])
    = Some "out/sketch.svg" /\
  find_unique_path 2 "sketch.svg" "out" true (world_with [] [])
    = Some "out/sketch_1.svg" /\
  find_unique_path 2 "sketch.svg" "out" false (world_with ["out/sketch.svg"] [])
    = Some "out/sketch_2.svg".
Proof.
  assert (H2 : (2 <= 2)%nat) by lia.
  destruct (find_unique_path_sketch_svg "out" (world_with [] []) 2 H2)
    as (Ha & Hb & _).
  destruct (find_unique_path_sketch_svg "out"
              (world_with ["out/sketch.svg"] []) 2 H2) as (_ & _ & Hc).
  split; [apply Ha; reflexivity|].
  split; [apply Hb; reflexivity|].
  apply Hc; reflexivity.
Defined.

Lemma find_unique_path_terminates_witness :
  exists fuel path,
    (forall fuel', (fuel <= fuel')%nat ->
       find_unique_path fuel' "sketch.svg" "out" false
         (world_with ["out/sketch.svg"] []) = Some path) /\
    path_exists (world_with ["out/sketch.svg"] []) path = false.
Proof.
  apply (find_unique_path_terminates "sketch.svg" "out" false
           (world_with ["out/sketch.svg"] [])).
  exists 0. intros i _. vm_compute. reflexivity.
Defined.


(** * Strings, paths and files *)

(** ** Strings *)

Lemma length_append :
  forall a b : string, String.length (a ++ b) = (String.length a + String.length b)%nat.
Proof.
  induction a as [|c a IH]; intros b; cbn [append String.length]; [reflexivity|].
  rewrite IH. reflexivity.
Qed.

Lemma substring_all : forall s : string, substring 0 (String.length s) s = s.
Proof.
  induction s as [|c s IH]; cbn [substring String.length]; [reflexivity|].
  rewrite IH. reflexivity.
Qed.

Lemma substring_append_right :
  forall a b : string, substring (String.length a) (String.length b) (a ++ b) = b.
Proof.
  induction a as [|c a IH]; intros b; cbn [append String.length substring].
  - apply substring_all.
  - apply IH.
Qed.

Lemma substring_append_left :
  forall a b : string, substring 0 (String.length a) (a ++ b) = a.
Proof.
  induction a as [|c a IH]; intros b; cbn [append String.length substring].
  - destruct b; reflexivity.
  - rewrite IH. reflexivity.
Qed.

Lemma substring_zero : forall (s : string) (n : nat), substring n 0 s = "".
Proof.
  induction s as [|c s IH]; intros [|n]; cbn [substring]; try reflexivity.
  apply IH.
Qed.

Lemma substring_split :
  forall (s : string) (n : nat),
    substring 0 n s ++ substring n (String.length s - n) s = s.
Proof.
  induction s as [|c s IH]; intros [|n]; cbn [substring String.length Nat.sub append];
    try reflexivity.
  - rewrite substring_all. reflexivity.
  - rewrite IH. reflexivity.
Qed.

Lemma prefix_append : forall a b : string, String.prefix a (a ++ b) = true.
Proof.
  induction a as [|c a IH]; intros b; cbn [append String.prefix].
  - destruct b; reflexivity.
  - destruct (ascii_dec c c) as [_|N]; [apply IH | contradiction].
Qed.

Lemma endswith_append : forall a b : string, endswith (a ++ b) b = true.
Proof.
  intros a b. unfold endswith. rewrite length_append.
  apply andb_true_intro. split.
  - apply Nat.leb_le. lia.
  - replace (String.length a + String.length b - String.length b)%nat
      with (String.length a) by lia.
    rewrite substring_append_right. apply String.eqb_refl.
Qed.

(** ** remove_prefix, remove_postfix *)

Lemma remove_prefix_append :
  forall s prefix : string, remove_prefix (prefix ++ s) prefix = s.
Proof.
  intros s prefix.
  unfold remove_prefix, startswith. rewrite prefix_append.
  unfold slice_from, len. rewrite length_append.
  replace (Z.of_nat (String.length prefix) <? 0) with false
    by (symmetry; apply Z.ltb_ge; lia).
  rewrite Z.min_l by lia.
  rewrite Nat2Z.id.
  replace (Z.to_nat (Z.of_nat (String.length prefix + String.length s)
                     - Z.of_nat (String.length prefix)))
    with (String.length s) by lia.
  apply substring_append_right.
Qed.

Lemma remove_postfix_append :
  forall s postfix : string,
    postfix <> "" -> remove_postfix (s ++ postfix) postfix = s.
Proof.
  intros s postfix Hne. unfold remove_postfix. rewrite endswith_append.
  unfold slice_to, len. rewrite length_append.
  assert (0 < String.length postfix)%nat.
  { destruct postfix; [contradiction | cbn [String.length]; lia]. }
  replace (- Z.of_nat (String.length postfix) <? 0) with true
    by (symmetry; apply Z.ltb_lt; lia).
  rewrite Z.max_r by lia.
  replace (Z.to_nat (- Z.of_nat (String.length postfix)
                     + Z.of_nat (String.length s + String.length postfix)))
    with (String.length s) by lia.
  apply substring_append_left.
Qed.

(** [remove_prefix] undoes the prepending of the prefix, and a string that
    does not start with the prefix is returned as it is. *)
Theorem remove_prefix_spec :
  forall s prefix : string,
    remove_prefix (prefix ++ s) prefix = s /\
    (startswith s prefix = false -> remove_prefix s prefix = s).
Proof.
  intros s prefix. split.
  - apply remove_prefix_append.
  - intros H. unfold remove_prefix. rewrite H. reflexivity.
Qed.

Lemma remove_prefix_spec_witness :
  remove_prefix ("sketch_" ++ "plot.py") "sketch_" = "plot.py" /\
  remove_prefix "plot.py" "sketch_" = "plot.py".
Proof.
  destruct (remove_prefix_spec "plot.py" "sketch_") as [H H'].
  split.
  - exact H.
  - apply H'. reflexivity.
Defined.

(** [remove_postfix] undoes the appending of a non-empty postfix, and a
    string that does not end with the postfix is returned as it is. *)
Theorem remove_postfix_spec :
  forall s postfix : string,
    (postfix <> "" -> remove_postfix (s ++ postfix) postfix = s) /\
    (endswith s postfix = false -> remove_postfix s postfix = s).
Proof.
  intros s postfix. split.
  - apply remove_postfix_append.
  - intros H. unfold remove_postfix. rewrite H. reflexivity.
Qed.

Lemma remove_postfix_spec_witness :
  remove_postfix ("plot" ++ ".py") ".py" = "plot" /\
  remove_postfix "plot.svg" ".py" = "plot.svg".
Proof.
  destruct (remove_postfix_spec "plot" ".py") as [H _].
  destruct (remove_postfix_spec "plot.svg" ".py") as [_ H'].
  split.
  - apply H. discriminate.
  - apply H'. reflexivity.
Defined.

(** With the empty postfix every string ends with it and the slice
    [s[:-0]] is empty: the result is the empty string, not [s]. *)
Theorem remove_postfix_empty :
  forall s : string, remove_postfix s "" = "".
Proof.
  intros s. unfold remove_postfix, endswith, slice_to, len.
  cbn [String.length]. rewrite Nat.sub_0_r.
  rewrite substring_zero. cbn.
  destruct s; reflexivity.
Qed.

(** ** canonical_name *)

(** Started at two offsets, [rfind_from] fails at both or finds the same
    character at both. *)
Lemma rfind_from_shift :
  forall (c : ascii) (s : string) (i j : Z),
    0 <= i -> 0 <= j ->
    (rfind_from c s i = -1 /\ rfind_from c s j = -1) \/
    (i <= rfind_from c s i /\ rfind_from c s j = rfind_from c s i - i + j).
Proof.
  intros c s. induction s as [|a s IH]; intros i j Hi Hj; cbn [rfind_from].
  - left. split; reflexivity.
  - destruct (IH (i + 1) (j + 1)) as [[Ei Ej]|[Li Ej]]; try lia.
    + rewrite Ei, Ej. cbn [Z.leb Z.compare].
      destruct (Ascii.eqb a c); [right | left]; split; lia.
    + rewrite Ej.
      replace (0 <=? rfind_from c s (i + 1)) with true
        by (symmetry; apply Z.leb_le; lia).
      replace (0 <=? rfind_from c s (i + 1) - (i + 1) + (j + 1)) with true
        by (symmetry; apply Z.leb_le; lia).
      right. split; lia.
Qed.

Lemma rfind_from_none :
  forall (c : ascii) (s : string) (i j : Z),
    0 <= i -> 0 <= j -> rfind_from c s i = -1 -> rfind_from c s j = -1.
Proof.
  intros c s i j Hi Hj H.
  destruct (rfind_from_shift c s i j Hi Hj) as [[_ E]|[L _]]; [exact E | lia].
Qed.

Lemma rfind_from_append_none :
  forall (c : ascii) (a b : string) (i : Z),
    0 <= i ->
    rfind_from c a 0 = -1 -> rfind_from c b 0 = -1 ->
    rfind_from c (a ++ b) i = -1.
Proof.
  intros c a b. induction a as [|x a IH]; intros i Hi Ha Hb; cbn [append].
  - apply (rfind_from_none c b 0 i); [lia | lia | exact Hb].
  - cbn [rfind_from] in Ha |- *.
    destruct (rfind_from_shift c a (0 + 1) 0) as [[E1 E0]|[L _]]; try lia.
    + rewrite E1 in Ha. cbn [Z.leb Z.compare] in Ha.
      rewrite (IH (i + 1)) by (try lia; assumption).
      cbn [Z.leb Z.compare]. destruct (Ascii.eqb x c); [discriminate Ha | reflexivity].
    + replace (0 <=? rfind_from c a (0 + 1)) with true in Ha
        by (symmetry; apply Z.leb_le; lia).
      lia.
Qed.

(** The last separator of [dir/name] is the one that was put between the
    two, when [name] has none. *)
Lemma rfind_from_joined :
  forall (c : ascii) (name : string),
    rfind_from c name 0 = -1 ->
    forall (d : string) (i : Z),
      0 <= i ->
      rfind_from c (d ++ String c name) i = i + Z.of_nat (String.length d).
Proof.
  intros c name Hname d. induction d as [|x d IH]; intros i Hi;
    cbn [append rfind_from String.length].
  - rewrite (rfind_from_none c name 0 (i + 1)) by (try lia; assumption).
    cbn [Z.leb Z.compare]. rewrite Ascii.eqb_refl. cbn. lia.
  - rewrite IH by lia.
    replace (0 <=? i + 1 + Z.of_nat (String.length d)) with true
      by (symmetry; apply Z.leb_le; lia).
    lia.
Qed.

Lemma substring_after_sep :
  forall (d : string) (c : ascii) (name : string),
    substring (String.length d + 1) (String.length name) (d ++ String c name) = name.
Proof.
  induction d as [|x d IH]; intros c name; cbn [append String.length Nat.add substring].
  - apply substring_all.
  - apply IH.
Qed.

Lemma path_name_joinpath :
  forall (dir_path : Path) (name : string),
    rfind name "/"%char = -1 ->
    path_name (joinpath dir_path name) = name.
Proof.
  intros dir_path name Hname.
  unfold path_name, joinpath, rfind. cbn [append].
  rewrite (rfind_from_joined _ name Hname) by lia.
  unfold slice_from, len. rewrite length_append. cbn [String.length].
  replace (0 + Z.of_nat (String.length dir_path) + 1 <? 0) with false
    by (symmetry; apply Z.ltb_ge; lia).
  rewrite Z.min_l by lia.
  replace (Z.to_nat (0 + Z.of_nat (String.length dir_path) + 1))
    with (String.length dir_path + 1)%nat by lia.
  replace (Z.to_nat (Z.of_nat (String.length dir_path + S (String.length name))
                     - (0 + Z.of_nat (String.length dir_path) + 1)))
    with (String.length name) by lia.
  apply substring_after_sep.
Qed.

(** The canonical name of [dir/sketch_<name>.py] is [<name>], for every
    name without a separator. *)
Theorem canonical_name_sketch_file :
  forall (dir_path : Path) (name : string),
    rfind name "/"%char = -1 ->
    canonical_name (joinpath dir_path ("sketch_" ++ name ++ ".py")) = name.
Proof.
  intros dir_path name Hname. unfold canonical_name.
  rewrite path_name_joinpath.
  - rewrite remove_prefix_append. apply remove_postfix_append. discriminate.
  - unfold rfind. apply rfind_from_append_none; [lia | reflexivity |].
    apply rfind_from_append_none; [lia | exact Hname | reflexivity].
Qed.

Lemma canonical_name_sketch_file_witness :
  canonical_name (joinpath "sketches" ("sketch_" ++ "plot" ++ ".py")) = "plot".
Proof.
  apply (canonical_name_sketch_file "sketches" "plot"). reflexivity.
Defined.

(** ** find_unique_path: which candidate is returned *)

Lemma splitext_append :
  forall p : string, fst (splitext p) ++ snd (splitext p) = p.
Proof.
  intros p. unfold splitext.
  destruct (rfind p "/"%char <? rfind p "."%char); cbn [fst snd].
  - destruct (has_non_dot p _ _); cbn [fst snd].
    + apply substring_split.
    + destruct p; cbn [append]; [reflexivity|].
      f_equal. clear. induction p as [|c p IH]; cbn [append]; congruence.
  - destruct p; cbn [append]; [reflexivity|].
    f_equal. clear. induction p as [|c p IH]; cbn [append]; congruence.
Qed.

(** Always-numbered loop: the result carries the first free index from
    [index] on. *)
Lemma find_unique_loop_numbered_least :
  forall fuel ex base ext dir name index path,
    find_unique_loop fuel ex base ext dir true name index = Some path ->
    exists i,
      index <= i /\
      path = joinpath dir ((base ++ "_" ++ str i) ++ ext) /\
      forall j, index <= j < i ->
        ex (joinpath dir ((base ++ "_" ++ str j) ++ ext)) = true.
Proof.
  induction fuel as [|fuel IH]; intros ex base ext dir name index path H.
  - discriminate.
  - rewrite find_unique_loop_step in H. cbv zeta in H.
    destruct (ex (joinpath dir ((base ++ "_" ++ str index) ++ ext))) eqn:E.
    + destruct (IH _ _ _ _ _ _ _ H) as (i & Hi & Hp & Hbelow).
      exists i. split; [lia|]. split; [exact Hp|].
      intros j Hj. destruct (Z.eq_dec j index) as [->|Hne]; [exact E|].
      apply Hbelow. lia.
    + inversion H; subst. exists index. split; [lia|]. split; [reflexivity|].
      intros j Hj. lia.
Qed.

(** Collision-only loop: the result is the name the loop was entered
    with, or that name exists and the result carries the first free index
    from [index] on. *)
Lemma find_unique_loop_collision_least :
  forall fuel ex base ext dir name index path,
    find_unique_loop fuel ex base ext dir false name index = Some path ->
    path = joinpath dir (name ++ ext) \/
    (ex (joinpath dir (name ++ ext)) = true /\
     exists i,
       index <= i /\
       path = joinpath dir ((base ++ "_" ++ str i) ++ ext) /\
       forall j, index <= j < i ->
         ex (joinpath dir ((base ++ "_" ++ str j) ++ ext)) = true).
Proof.
  induction fuel as [|fuel IH]; intros ex base ext dir name index path H.
  - discriminate.
  - rewrite find_unique_loop_step in H. cbv zeta in H.
    destruct (ex (joinpath dir (name ++ ext))) eqn:E.
    + right. split; [reflexivity|].
      destruct (IH _ _ _ _ _ _ _ H) as [Hp | (Hex & i & Hi & Hp & Hbelow)].
      * exists index. split; [lia|]. split; [exact Hp|]. intros j Hj. lia.
      * exists i. split; [lia|]. split; [exact Hp|].
        intros j Hj. destruct (Z.eq_dec j index) as [->|Hne]; [exact Hex|].
        apply Hbelow. lia.
    + left. inversion H; subst. reflexivity.
Qed.

(** In always-numbered mode the path returned is the candidate with the
    smallest suffix, counted from 1, that does not exist: every candidate
    with a smaller suffix exists. *)
Theorem find_unique_path_numbered_least :
  forall (fuel : nat) (filename : string) (dir_path : Path) (w : World) (path : Path),
    find_unique_path fuel filename dir_path true w = Some path ->
    exists i,
      1 <= i /\
      path = numbered filename dir_path i /\
      path_exists w path = false /\
      forall j, 1 <= j < i -> path_exists w (numbered filename dir_path j) = true.
Proof.
  intros fuel filename dir_path w path H.
  unfold find_unique_path in H. unfold numbered.
  destruct (splitext filename) as [base ext]. cbn [fst snd].
  pose proof (find_unique_loop_sound _ _ _ _ _ _ _ _ _ H) as Hfree.
  destruct (find_unique_loop_numbered_least _ _ _ _ _ _ _ _ H)
    as (i & Hi & Hp & Hbelow).
  exists i. repeat split; assumption.
Qed.

Lemma find_unique_path_numbered_least_witness :
  exists i,
    1 <= i /\
    "out/sketch_2.svg" = numbered "sketch.svg" "out" i /\
    path_exists (world_with ["out/sketch_1.svg"] []) "out/sketch_2.svg" = false /\
    forall j, 1 <= j < i ->
      path_exists (world_with ["out/sketch_1.svg"] [])
        (numbered "sketch.svg" "out" j) = true.
Proof.
  apply (find_unique_path_numbered_least 5 "sketch.svg" "out"
           (world_with ["out/sketch_1.svg"] []) "out/sketch_2.svg").
  reflexivity.
Defined.

(** In collision-only mode the path returned is the file name itself in
    the directory when that is free; otherwise it is the candidate with
    the smallest suffix, counted from 2, that does not exist.  The suffix
    [_1] is never used. *)
Theorem find_unique_path_collision_least :
  forall (fuel : nat) (filename : string) (dir_path : Path) (w : World) (path : Path),
    find_unique_path fuel filename dir_path false w = Some path ->
    path_exists w path = false /\
    (path = joinpath dir_path filename \/
     (path_exists w (joinpath dir_path filename) = true /\
      exists i,
        2 <= i /\
        path = numbered filename dir_path i /\
        forall j, 2 <= j < i -> path_exists w (numbered filename dir_path j) = true)).
Proof.
  intros fuel filename dir_path w path H.
  unfold find_unique_path in H. unfold numbered.
  rewrite <- (splitext_append filename) at 1 2.
  destruct (splitext filename) as [base ext]. cbn [fst snd].
  split; [eapply find_unique_loop_sound; exact H|].
  destruct (find_unique_loop_collision_least _ _ _ _ _ _ _ _ H)
    as [Hp | (Hex & i & Hi & Hp & Hbelow)].
  - left. exact Hp.
  - right. split; [exact Hex|]. exists i. repeat split; assumption.
Qed.

Lemma find_unique_path_collision_least_witness :
  path_exists (world_with ["out/sketch.svg"; "out/sketch_2.svg"] [])
    "out/sketch_3.svg" = false /\
  ("out/sketch_3.svg" = joinpath "out" "sketch.svg" \/
   (path_exists (world_with ["out/sketch.svg"; "out/sketch_2.svg"] [])
      (joinpath "out" "sketch.svg") = true /\
    exists i,
      2 <= i /\
      "out/sketch_3.svg" = numbered "sketch.svg" "out" i /\
      forall j, 2 <= j < i ->
        path_exists (world_with ["out/sketch.svg"; "out/sketch_2.svg"] [])
          (numbered "sketch.svg" "out" j) = true)).
Proof.
  apply (find_unique_path_collision_least 5 "sketch.svg" "out"
           (world_with ["out/sketch.svg"; "out/sketch_2.svg"] [])
           "out/sketch_3.svg").
  reflexivity.
Defined.

(** For every file name: when [dir/filename] does not exist, collision-only
    mode returns exactly [dir/filename], after one iteration. *)
Theorem find_unique_path_free_name :
  forall (fuel : nat) (filename : string) (dir_path : Path) (w : World),
    (1 <= fuel)%nat ->
    path_exists w (joinpath dir_path filename) = false ->
    find_unique_path fuel filename dir_path false w
      = Some (joinpath dir_path filename).
Proof.
  intros fuel filename dir_path w Hfuel Hfree.
  destruct fuel as [|fuel]; [lia|].
  unfold find_unique_path.
  rewrite <- (splitext_append filename) in Hfree |- * at 2.
  destruct (splitext filename) as [base ext]. cbn [fst snd] in *.
  rewrite find_unique_loop_step. cbv zeta.
  rewrite Hfree. reflexivity.
Qed.

Lemma find_unique_path_free_name_witness :
  find_unique_path 1 "notes.tar.gz" "out" false (world_with ["out/sketch.svg"] [])
  = Some (joinpath "out" "notes.tar.gz").
Proof.
  apply (find_unique_path_free_name 1 "notes.tar.gz" "out"
           (world_with ["out/sketch.svg"] [])).
  - lia.
  - reflexivity.
Defined.

(** ** get_config_path *)

(** Whenever [get_config_path] returns, it returns [parent/config], that
    path exists afterwards, and when it existed before nothing in the
    process has changed; when it raises, nothing has changed either. *)
Theorem get_config_path_exists :
  forall (path : Path) (w : World),
    let config_path := joinpath (parent path) "config" in
    match get_config_path path w with
    | (Returned p, w') =>
        p = config_path /\
        path_exists w' config_path = true /\
        (path_exists w config_path = true -> w' = w)
    | (Raised _, w') =>
        w' = w /\ path_exists w config_path = false
    end.
Proof.
  intros path w config_path.
  unfold get_config_path, bind, ret, path_mkdir. fold config_path.
  destruct (path_exists w config_path) eqn:E; cbn [negb].
  - repeat split; try reflexivity. exact E.
  - rewrite E.
    destruct (path_is_dir w (parent config_path)); cbn [negb].
    + repeat split.
      * cbn [add_directory path_exists]. rewrite String.eqb_refl. reflexivity.
      * discriminate.
    + split; reflexivity.
Qed.

(** A second call finds the directory the first one made: it returns the
    same path and changes nothing. *)
Theorem get_config_path_twice :
  forall (path : Path) (w w' : World) (p : Path),
    get_config_path path w = (Returned p, w') ->
    get_config_path path w' = (Returned p, w').
Proof.
  intros path w w' p H.
  unfold get_config_path, bind, ret, path_mkdir in *.
  set (config_path := joinpath (parent path) "config") in *.
  destruct (path_exists w config_path) eqn:E; cbn [negb] in H.
  - inversion H; subst. rewrite E. reflexivity.
  - rewrite E in H.
    destruct (path_is_dir w (parent config_path)); cbn [negb] in H.
    + inversion H; subst.
      cbn [add_directory path_exists]. rewrite String.eqb_refl. reflexivity.
    + discriminate H.
Qed.

Lemma get_config_path_twice_witness :
  get_config_path "sketches/sketch_a.py"
    (add_directory "sketches/config" (world_with ["sketches"] ["sketches"]))
  = (Returned "sketches/config",
     add_directory "sketches/config" (world_with ["sketches"] ["sketches"])).
Proof.
  apply (get_config_path_twice "sketches/sketch_a.py"
           (world_with ["sketches"] ["sketches"])).
  reflexivity.
Defined.

(** ** load_config *)

(** C10: the result is exactly the value the JSON decoder produced for the
    file's text, whatever its top-level type; an array or a scalar is
    returned as it is. *)
Theorem load_config_returns_parsed :
  forall (json_loads : string -> Outcome Json) (path : Path) (w : World)
         (text : string) (v : Json),
    read_text w path = Some text ->
    json_loads text = Returned v ->
    load_config json_loads path w = (Returned v, w).
Proof.
  intros json_loads path w text v Hread Hparse.
  unfold load_config, bind, open_read, ret.
  rewrite Hread, Hparse. reflexivity.
Qed.

Lemma load_config_returns_parsed_witness :
  load_config json_literal "config/a.json" (world_with_file "config/a.json" "[]")
  = (Returned (JArray []), world_with_file "config/a.json" "[]").
Proof.
  apply (load_config_returns_parsed json_literal "config/a.json"
           (world_with_file "config/a.json" "[]") "[]" (JArray [])).
  - reflexivity.
  - reflexivity.
Defined.
(** * Properties that hold in every arithmetic *)

Section Properties.

Context {ar : Arith}.

(** ** load_sketch_class *)

Lemma first_sketch_class_skip :
  forall cwd_path pre rest,
    Forall (fun o => is_sketch_definition o = false) pre ->
    first_sketch_class cwd_path (pre ++ rest)%list = first_sketch_class cwd_path rest.
Proof.
  intros cwd_path pre rest H.
  induction H as [|o pre Ho _ IH]; [reflexivity|].
  cbn [app first_sketch_class]. rewrite Ho. exact IH.
Qed.

Lemma first_sketch_class_none :
  forall cwd_path objs,
    Forall (fun o => is_sketch_definition o = false) objs ->
    first_sketch_class cwd_path objs = None.
Proof.
  intros cwd_path objs H.
  rewrite <- (app_nil_r objs).
  rewrite first_sketch_class_skip by exact H. reflexivity.
Qed.

(** [load_sketch_class] in terms of the outcome of its [with] block. *)
Lemma load_sketch_class_run :
  forall run_path path w,
    load_sketch_class run_path path w =
    match working_directory (resolve_cwd_path path w) (run_path path) w with
    | (Returned ns, w1) =>
        (Returned (first_sketch_class (resolve_cwd_path path w) (values ns)), w1)
    | (Raised e, w1) =>
        if isinstance_Exception e
        then (Returned None,
              echo_err (Styled RED true "Could not load script due to previous error." "")
                (echo_err (Traceback e) w1))
        else (Raised e, w1)
    end.
Proof.
  intros run_path path w.
  unfold load_sketch_class, bind, try_except_Exception, ret.
  destruct (working_directory (resolve_cwd_path path w) (run_path path) w)
    as [[ns|e] w1]; [reflexivity|].
  destruct (isinstance_Exception e); reflexivity.
Qed.

(** C6: when the script runs to its end, the class returned is the first
    value of the namespace, in its order, that is a class deriving from
    the sketch base class, and it carries the resolved context directory
    as [__vsketch_cwd__]; when no value is such a class the result is
    [None], returned and not raised. *)
Theorem load_sketch_class_first_match :
  forall (run_path : Path -> M Namespace) (path : Path) (w : World)
         (ns : Namespace) (w1 : World),
    working_directory (resolve_cwd_path path w) (run_path path) w = (Returned ns, w1) ->
    (forall pre name o post,
        ns = (pre ++ (name, o) :: post)%list ->
        Forall (fun b => is_sketch_definition (snd b) = false) pre ->
        is_sketch_definition o = true ->
        exists cls,
          o = VsketchClass cls /\
          fst (load_sketch_class run_path path w)
            = Returned (Some (set_vsketch_cwd (resolve_cwd_path path w) cls)) /\
          vsketch_cwd (set_vsketch_cwd (resolve_cwd_path path w) cls)
            = Some (resolve_cwd_path path w)) /\
    (Forall (fun b => is_sketch_definition (snd b) = false) ns ->
     fst (load_sketch_class run_path path w) = Returned None).
Proof.
  intros run_path path w ns w1 Hrun.
  rewrite load_sketch_class_run, Hrun. cbn [fst].
  split.
  - intros pre name o post -> Hpre Ho.
    unfold values. rewrite map_app. cbn [map snd].
    rewrite first_sketch_class_skip by (apply Forall_map; exact Hpre).
    cbn [first_sketch_class]. rewrite Ho.
    destruct o as [r|n|cls]; try discriminate Ho.
    exists cls. repeat split.
  - intros Hnone. rewrite first_sketch_class_none; [reflexivity|].
    unfold values. apply Forall_map. exact Hnone.
Qed.


(** [load_sketch_class] itself writes to the error channel only when it
    catches an exception, and then the traceback followed by one red
    line; otherwise the channel is as the script left it. *)
Theorem load_sketch_class_stderr :
  forall (run_path : Path -> M Namespace) (path : Path) (w w1 : World)
         (r : Outcome Namespace),
    working_directory (resolve_cwd_path path w) (run_path path) w = (r, w1) ->
    stderr (snd (load_sketch_class run_path path w)) =
    match r with
    | Returned _ => stderr w1
    | Raised e =>
        if isinstance_Exception e
        then (stderr w1 ++
              [Traceback e;
               Styled RED true "Could not load script due to previous error." ""])%list
        else stderr w1
    end.
Proof.
  intros run_path path w w1 r Hrun.
  rewrite load_sketch_class_run, Hrun.
  destruct r as [ns|e]; [reflexivity|].
  destruct (isinstance_Exception e); [|reflexivity].
  cbn. rewrite <- app_assoc. reflexivity.
Qed.


(** ** execute_sketch *)


(** [execute_sketch] in terms of the outcome of its [with] block. *)
Lemma execute_sketch_run :
  forall cls seed finalize w,
    execute_sketch (Some cls) seed finalize w =
    match working_directory (getattr_vsketch_cwd cls (cwd w))
            (execute_scoped cls seed finalize) w with
    | (Returned None, w') => (Returned None, w')
    | (Returned (Some vsk), w') => (Returned (Some (apply_centering vsk)), w')
    | (Raised e, w') => (Raised e, w')
    end.
Proof.
  intros cls seed finalize w.
  unfold execute_sketch, bind at 1, os_getcwd.
  destruct (path_is_dir w (cwd w)) eqn:Hhere.
  - unfold bind, ret.
    destruct (working_directory (getattr_vsketch_cwd cls (cwd w))
                (execute_scoped cls seed finalize) w) as [[[vsk|]|e] w'];
      reflexivity.
  - rewrite working_directory_run, Hhere. reflexivity.
Qed.


(** C3, as the code has it: the instance returned is the one the scoped
    block produced, unchanged when [centered] is false or the page size
    or the bounds are undefined; otherwise its document is translated by
    ((page_width - bbox_width)/2 - bbox_min_x,
     (page_height - bbox_height)/2 - bbox_min_y), each operation being
    the one of the arithmetic in use. *)
Theorem execute_sketch_centering :
  forall (cls : SketchClass) (seed : option Z) (finalize : bool)
         (w w' : World) (vsk : Vsketch),
    working_directory (getattr_vsketch_cwd cls (cwd w))
      (execute_scoped cls seed finalize) w = (Returned (Some vsk), w') ->
    exists vsk',
      execute_sketch (Some cls) seed finalize w = (Returned (Some vsk'), w') /\
      (centered vsk = false \/ page_size (document vsk) = None \/
       bounds (document vsk) = None -> vsk' = vsk) /\
      (forall page_width page_height b0 b1 b2 b3,
          centered vsk = true ->
          page_size (document vsk) = Some (page_width, page_height) ->
          bounds (document vsk) = Some (b0, b1, b2, b3) ->
          let offset_x :=
            num_sub (num_half (num_sub page_width (num_sub b2 b0))) b0 in
          let offset_y :=
            num_sub (num_half (num_sub page_height (num_sub b3 b1))) b1 in
          vsk' = set_document (translate offset_x offset_y (document vsk)) vsk).
Proof.
  intros cls seed finalize w w' vsk Hrun.
  exists (apply_centering vsk).
  rewrite execute_sketch_run, Hrun.
  split; [reflexivity|]. split.
  - unfold apply_centering. intros [H|[H|H]].
    + rewrite H. reflexivity.
    + rewrite H. destruct (centered vsk); reflexivity.
    + rewrite H. destruct (centered vsk); [|reflexivity].
      destruct (page_size (document vsk)); reflexivity.
  - intros pw ph b0 b1 b2 b3 Hc Hp Hb. cbv zeta.
    unfold apply_centering. rewrite Hc, Hp, Hb. reflexivity.
Qed.

(** [finalize] is run only when requested, and then once, on the instance
    [draw] returned and in the process [draw] left: without the request
    the outcome is the same whatever that procedure is, and with it the
    run is that of a class whose [draw] is [draw] followed by
    [finalize]. *)
Theorem execute_sketch_finalize_after_draw :
  forall (cls : SketchClass) (fin : Vsketch -> M Vsketch) (seed : option Z)
         (w : World),
    execute_sketch (Some (with_finalize fin cls)) seed false w
      = execute_sketch (Some cls) seed false w /\
    execute_sketch (Some cls) seed true w
      = execute_sketch
          (Some (with_procedures
                   (fun vsk => vsk' <- draw_method cls vsk ;; finalize_method cls vsk')
                   fin cls))
          seed false w.
Proof.
  intros cls fin seed w. split; [reflexivity|].
  rewrite !execute_sketch_run.
  change (getattr_vsketch_cwd (with_procedures _ fin cls) (cwd w))
    with (getattr_vsketch_cwd cls (cwd w)).
  assert (E : forall x,
             execute_scoped cls seed true x
             = execute_scoped
                 (with_procedures
                    (fun vsk => vsk' <- draw_method cls vsk ;; finalize_method cls vsk')
                    fin cls) seed false x).
  { intros x. unfold execute_scoped, bind, ret.
    cbn [construct draw_method with_procedures].
    destruct (construct cls x) as [[[vsk|]|e] x1]; try reflexivity.
    destruct (seed_all seed vsk x1) as [[v1|e] x2]; try reflexivity.
    destruct (draw_method cls v1 x2) as [[v2|e] x3]; reflexivity. }
  rewrite !working_directory_run.
  destruct (path_is_dir w (cwd w)); [|reflexivity].
  destruct (can_enter w (getattr_vsketch_cwd cls (cwd w))); [|reflexivity].
  cbv zeta. rewrite E. reflexivity.
Qed.



(** ** Centering: what it keeps *)

Lemma bounds_of_points_none :
  forall l : list Point, bounds_of_points l = None <-> l = [].
Proof.
  intros [|[x y] l]; cbn [bounds_of_points].
  - split; reflexivity.
  - destruct (bounds_of_points l) as [[[[b0 b1] b2] b3]|]; split; discriminate.
Qed.

Lemma bounds_translate_none :
  forall (dx dy : num) (d : Document),
    bounds (translate dx dy d) = None <-> bounds d = None.
Proof.
  intros dx dy d. unfold bounds, translate. cbn [lines].
  rewrite <- concat_map, !bounds_of_points_none.
  split.
  - apply map_eq_nil.
  - intros ->. reflexivity.
Qed.

(** The instance after centering, case by case. *)
Lemma apply_centering_cases :
  forall vsk : Vsketch,
    (apply_centering vsk = vsk /\
     (centered vsk = false \/ page_size (document vsk) = None \/
      bounds (document vsk) = None)) \/
    (exists size b,
        centered vsk = true /\ page_size (document vsk) = Some size /\
        bounds (document vsk) = Some b /\
        apply_centering vsk =
        set_document (translate (fst (centering_offset size b))
                                (snd (centering_offset size b)) (document vsk)) vsk).
Proof.
  intros vsk. unfold apply_centering.
  destruct (centered vsk) eqn:Ec; [|left; split; [reflexivity | left; reflexivity]].
  destruct (page_size (document vsk)) as [size|] eqn:Ep;
    [|left; split; [reflexivity | right; left; reflexivity]].
  destruct (bounds (document vsk)) as [b|] eqn:Eb;
    [|left; split; [reflexivity | right; right; reflexivity]].
  right. exists size, b. repeat split.
  destruct (centering_offset size b) as [dx dy]. reflexivity.
Qed.

(** Centering moves points and nothing else: the flag, the two sources,
    the attributes, the page size and the number of points of every line
    stay, and the document has bounds afterwards exactly when it had
    bounds before. *)
Theorem apply_centering_frame :
  forall vsk : Vsketch,
    let vsk' := apply_centering vsk in
    centered vsk' = centered vsk /\
    vsk_random vsk' = vsk_random vsk /\
    vsk_noise vsk' = vsk_noise vsk /\
    attributes vsk' = attributes vsk /\
    page_size (document vsk') = page_size (document vsk) /\
    map (@List.length Point) (lines (document vsk'))
      = map (@List.length Point) (lines (document vsk)) /\
    (bounds (document vsk') = None <-> bounds (document vsk) = None).
Proof.
  intros vsk. cbv zeta.
  destruct (apply_centering_cases vsk) as [[E _] | (size & b & Ec & Ep & Eb & E)];
    rewrite E.
  - repeat split; intros H; exact H.
  - cbn [set_document centered vsk_random vsk_noise attributes document].
    split; [reflexivity|]. split; [reflexivity|]. split; [reflexivity|].
    split; [reflexivity|]. split; [reflexivity|]. split.
    + cbn [translate lines]. rewrite map_map. apply map_ext.
      intros l. apply length_map.
    + apply bounds_translate_none.
Qed.

(** ** Reproducibility under a seed *)

Lemma same_environment_set_cwd :
  forall p w1 w2,
    same_environment w1 w2 -> same_environment (set_cwd p w1) (set_cwd p w2).
Proof.
  intros p w1 w2 (_ & He & Hd & Hr & Hre & Hs). repeat split; assumption.
Qed.

(** After seeding, the two runs hold the same instance in processes that
    differ in the unseeded sources only. *)
Lemma seed_all_same_seeded :
  forall S v1 v2 w1 w2,
    same_but_rng (Some v1) (Some v2) ->
    same_environment w1 w2 ->
    exists v w1' w2',
      seed_all (Some S) v1 w1 = (Returned v, w1') /\
      seed_all (Some S) v2 w2 = (Returned v, w2') /\
      same_seeded w1' w2'.
Proof.
  intros S v1 v2 w1 w2 (Hc & Hd & Ha) (Hcwd & He & Hdir & Hr & Hre & Hs).
  exists (noiseSeed S (randomSeed S v1)),
         (set_np_random (seed_rng S) (set_py_random (seed_rng S) w1)),
         (set_np_random (seed_rng S) (set_py_random (seed_rng S) w2)).
  split; [reflexivity|]. split.
  - unfold seed_all, bind, random_seed, np_random_seed, ret.
    unfold noiseSeed, randomSeed. cbn [vsk_random vsk_noise centered document attributes].
    rewrite Hc, Hd, Ha. reflexivity.
  - repeat split; assumption.
Qed.

(** Inside the scope the two runs end the same way, on the same instance
    when they return one, and leave the same environment. *)
Lemma execute_scoped_deterministic :
  forall (cls : SketchClass) (S : Z) (F : bool) (x1 x2 : World),
    construct_seeded_only cls ->
    seeded_only (draw_method cls) ->
    (F = true -> seeded_only (finalize_method cls)) ->
    same_environment x1 x2 ->
    agree eq same_environment
      (execute_scoped cls (Some S) F x1) (execute_scoped cls (Some S) F x2).
Proof.
  intros cls S F x1 x2 Hnew Hdraw Hfin Henv.
  pose proof (Hnew _ _ Henv) as Hc.
  unfold execute_scoped, bind.
  destruct (construct cls x1) as [[o1|e1] w1'];
    destruct (construct cls x2) as [[o2|e2] w2'];
    cbn [agree] in Hc; try contradiction; [|exact Hc].
  destruct Hc as [Ho Hw].
  destruct o1 as [v1|]; destruct o2 as [v2|]; cbn [same_but_rng] in Ho;
    try contradiction; [|split; [reflexivity | exact Hw]].
  destruct (seed_all_same_seeded S v1 v2 w1' w2' Ho Hw)
    as (v & u1 & u2 & Hs1 & Hs2 & Hu).
  rewrite Hs1, Hs2.
  pose proof (Hdraw v _ _ Hu) as Hd.
  destruct (draw_method cls v u1) as [[d1|e1] y1];
    destruct (draw_method cls v u2) as [[d2|e2] y2];
    cbn [agree] in Hd; try contradiction;
    [|split; [apply Hd | apply Hd]].
  destruct Hd as [<- Hy].
  destruct F; [|split; [reflexivity | apply Hy]].
  pose proof (Hfin eq_refl d1 _ _ Hy) as Hf.
  destruct (finalize_method cls d1 y1) as [[f1|e1] z1];
    destruct (finalize_method cls d1 y2) as [[f2|e2] z2];
    cbn [agree] in Hf; try contradiction.
  - destruct Hf as [<- Hz]. split; [reflexivity | apply Hz].
  - split; [apply Hf | apply Hf].
Qed.

(** A scope entered from the same environment with bodies that agree
    ends the same way. *)
Lemma working_directory_agree :
  forall (A : Type) (path : Path) (body : M A) (w1 w2 : World),
    same_environment w1 w2 ->
    agree eq same_environment (body (entered path w1)) (body (entered path w2)) ->
    fst (working_directory path body w1) = fst (working_directory path body w2).
Proof.
  intros A path body w1 w2 Henv Hbody.
  rewrite !working_directory_run.
  destruct Henv as (Hcwd & He & Hdir & Hr & Hre & Hs).
  unfold can_enter. rewrite <- Hcwd, <- Hdir.
  destruct (path_is_dir w1 (cwd w1)); [|reflexivity].
  destruct (path_is_dir w1 (resolve_from (cwd w1) path)); [|reflexivity].
  cbv zeta.
  destruct (body (entered path w1)) as [r1 y1];
    destruct (body (entered path w2)) as [r2 y2].
  cbn [fst snd].
  assert (Hy : r1 = r2 /\ same_environment y1 y2).
  { destruct r1, r2; cbn [agree] in Hbody; try contradiction;
      destruct Hbody as [-> Hy]; split; [reflexivity | exact Hy | reflexivity | exact Hy]. }
  destruct Hy as [-> (Hcwd' & _ & Hdir' & _)].
  rewrite <- Hcwd', <- Hdir'.
  destruct (path_is_dir y1 (resolve_from (cwd y1) (cwd w1))); reflexivity.
Qed.

(** C1, as the code has it: when the constructor does not depend on the
    state of any randomness source, and [draw] and (if it is requested)
    [finalize] consume randomness only through the four seeded sources,
    two runs with the same seed in the same environment end the same way,
    and when they return an instance the two documents are equal. *)
Theorem execute_sketch_deterministic :
  forall (cls : SketchClass) (S : Z) (F : bool) (w1 w2 : World),
    construct_seeded_only cls ->
    seeded_only (draw_method cls) ->
    (F = true -> seeded_only (finalize_method cls)) ->
    same_environment w1 w2 ->
    same_geometry (fst (execute_sketch (Some cls) (Some S) F w1))
                  (fst (execute_sketch (Some cls) (Some S) F w2)).
Proof.
  intros cls S F w1 w2 Hnew Hdraw Hfin Henv.
  rewrite !execute_sketch_run.
  assert (Hcwd : cwd w1 = cwd w2) by apply Henv.
  rewrite <- Hcwd.
  set (home := getattr_vsketch_cwd cls (cwd w1)).
  assert (Hin : same_environment (entered home w1) (entered home w2)).
  { unfold entered. rewrite <- Hcwd. apply same_environment_set_cwd. exact Henv. }
  pose proof (working_directory_agree _ home _ w1 w2 Henv
                (execute_scoped_deterministic cls S F _ _ Hnew Hdraw Hfin Hin)) as H.
  destruct (working_directory home (execute_scoped cls (Some S) F) w1) as [r1 y1];
    destruct (working_directory home (execute_scoped cls (Some S) F) w2) as [r2 y2].
  cbn [fst] in H. subst r2.
  destruct r1 as [[v|]|e]; cbn [fst same_geometry]; reflexivity.
Qed.

(** A procedure that leaves the process alone and computes its result
    from the instance is seeded-only. *)
Lemma seeded_only_pure :
  forall f : Vsketch -> Vsketch, seeded_only (fun vsk => ret (f vsk)).
Proof.
  intros f vsk w1 w2 H. cbn [ret agree]. split; [reflexivity | exact H].
Qed.

Lemma new_vsketch_seeded_only :
  forall name draw fin,
    construct_seeded_only (mkSketchClass name None new_vsketch draw fin).
Proof.
  intros name draw fin w1 w2 H. cbn [construct new_vsketch agree same_but_rng].
  repeat split; apply H.
Qed.

End Properties.

(** * Properties in exact arithmetic *)

Lemma Qcompare_translate :
  forall x a d : Q, (Qred (x + d) ?= Qred (a + d))%Q = (x ?= a)%Q.
Proof.
  intros x a d.
  rewrite (Qcompare_comp _ _ (Qred_correct (x + d)) _ _ (Qred_correct (a + d))).
  destruct (Qcompare_spec x a) as [H|H|H].
  - apply Qeq_alt. rewrite H. reflexivity.
  - apply Qlt_alt. apply Qplus_lt_l. exact H.
  - apply Qgt_alt. apply Qplus_lt_l. exact H.
Qed.

Lemma Qmin_translate :
  forall x a d : Q, Qmin (Qred (x + d)) (Qred (a + d)) = Qred (Qmin x a + d).
Proof.
  intros x a d. unfold Qmin, GenericMinMax.gmin.
  rewrite Qcompare_translate. destruct (x ?= a)%Q; reflexivity.
Qed.

Lemma Qmax_translate :
  forall x a d : Q, Qmax (Qred (x + d)) (Qred (a + d)) = Qred (Qmax x a + d).
Proof.
  intros x a d. unfold Qmax, GenericMinMax.gmax.
  rewrite Qcompare_translate. destruct (x ?= a)%Q; reflexivity.
Qed.

Lemma bounds_of_points_translate :
  forall (dx dy : Q) (l : list (@Point exact)),
    bounds_of_points (map (@translate_point exact dx dy) l)
    = option_map (@translate_bounds exact dx dy) (bounds_of_points l).
Proof.
  intros dx dy l. induction l as [|[x y] l IH]; [reflexivity|].
  cbn [map bounds_of_points translate_point fst snd]. rewrite IH.
  destruct (bounds_of_points l) as [[[[b0 b1] b2] b3]|]; cbn [option_map translate_bounds].
  - cbn [num_add num_min num_max exact].
    rewrite !Qmin_translate, !Qmax_translate. reflexivity.
  - reflexivity.
Qed.

(** C4, as the code has it: a centred instance with page size (100, 100)
    and one shape of bounds (10,10)-(30,50) comes back with that shape at
    (40,30)-(60,70). *)
Theorem execute_sketch_centering_example :
  forall (cls : @SketchClass exact) (seed : option Z) (finalize : bool)
         (w w' : World) (vsk : Vsketch) (shape : list Point),
    working_directory (getattr_vsketch_cwd cls (cwd w))
      (execute_scoped cls seed finalize) w = (Returned (Some vsk), w') ->
    centered vsk = true ->
    page_size (document vsk) = Some (100#1, 100#1)%Q ->
    lines (document vsk) = [shape] ->
    bounds_of_points shape = Some (10#1, 10#1, 30#1, 50#1)%Q ->
    exists vsk' shape',
      fst (execute_sketch (Some cls) seed finalize w) = Returned (Some vsk') /\
      lines (document vsk') = [shape'] /\
      bounds_of_points shape' = Some (40#1, 30#1, 60#1, 70#1)%Q.
Proof.
  intros cls seed finalize w w' vsk shape Hrun Hc Hp Hl Hb.
  assert (Hbd : bounds (document vsk) = Some (10#1, 10#1, 30#1, 50#1)%Q).
  { unfold bounds. rewrite Hl. cbn [concat]. rewrite app_nil_r. exact Hb. }
  rewrite execute_sketch_run, Hrun. cbn [fst snd].
  unfold apply_centering. rewrite Hc, Hp, Hbd.
  set (off := @centering_offset exact (100#1, 100#1)%Q (10#1, 10#1, 30#1, 50#1)%Q).
  exists (set_document (translate (fst off) (snd off) (document vsk)) vsk),
         (map (translate_point (fst off) (snd off)) shape).
  split; [reflexivity|]. split.
  - cbn [set_document document translate lines]. rewrite Hl. reflexivity.
  - rewrite bounds_of_points_translate, Hb. reflexivity.
Qed.

Lemma execute_sketch_centering_example_witness :
  exists vsk' shape',
    fst (execute_sketch (Some rect_sketch) (Some 7) true (world_with [] []))
      = Returned (Some vsk') /\
    lines (document vsk') = [shape'] /\
    bounds_of_points shape' = Some (40#1, 30#1, 60#1, 70#1)%Q.
Proof.
  eapply (execute_sketch_centering_example rect_sketch (Some 7) true
            (world_with [] [])); reflexivity.
Defined.

(** In binary64 the scenario gives the same numbers, all of which are
    binary64 values. *)
Example execute_sketch_centering_example_binary64 :
  exists vsk' shape',
    fst (execute_sketch (Some rect_sketch_binary64) None false (world_with [] []))
      = Returned (Some vsk') /\
    lines (document vsk') = [shape'] /\
    bounds_of_points shape' = Some (40, 30, 60, 70)%float.
Proof.
  do 2 eexists. split; [vm_compute; reflexivity|].
  split; [reflexivity|]. vm_compute. reflexivity.
Qed.

(** C4, as stated, fails: the rectangle sketch is centred, has a
    (100, 100) page and one shape of bounds (10,10)-(30,50), and its shape
    does not come back at (35,25)-(55,65). *)
Lemma centering_example_not_35_25 :
  ~ (forall (cls : @SketchClass exact) (seed : option Z) (finalize : bool)
            (w w' : World) (vsk : Vsketch) (shape : list Point),
        working_directory (getattr_vsketch_cwd cls (cwd w))
          (execute_scoped cls seed finalize) w = (Returned (Some vsk), w') ->
        centered vsk = true ->
        page_size (document vsk) = Some (100#1, 100#1)%Q ->
        lines (document vsk) = [shape] ->
        bounds_of_points shape = Some (10#1, 10#1, 30#1, 50#1)%Q ->
        exists vsk' shape' b,
          fst (execute_sketch (Some cls) seed finalize w) = Returned (Some vsk') /\
          lines (document vsk') = [shape'] /\
          bounds_of_points shape' = Some b /\
          Bounds_eq b (35#1, 25#1, 55#1, 65#1)%Q).
Proof.
  intros H.
  destruct (H rect_sketch None false (world_with [] []) _ _ _
              eq_refl eq_refl eq_refl eq_refl eq_refl)
    as (vsk' & shape' & b & Hret & Hl & Hb & Heq).
  vm_compute in Hret. inversion Hret; subst vsk'; clear Hret.
  vm_compute in Hl. inversion Hl; subst shape'; clear Hl.
  vm_compute in Hb. inversion Hb; subst b; clear Hb.
  destruct Heq as [H0 _]. vm_compute in H0. discriminate H0.
Qed.

(** * The definitions on concrete processes *)

(** ** Centering in binary64 *)

Lemma execute_sketch_centering_witness :
  exists vsk',
    execute_sketch (Some small_rect_sketch) None false (world_with [] [])
      = (Returned (Some vsk'), world_with [] []) /\
    bounds (document vsk')
      = Some (0.4, 0.4, 0x1.3333333333334p-1, 0x1.3333333333334p-1)%float.
Proof.
  destruct (@execute_sketch_centering binary64 small_rect_sketch None false
              (world_with [] []) _ _ eq_refl) as (vsk' & Hret & _ & Hmove).
  exists vsk'. split; [exact Hret|].
  rewrite (Hmove 1 1 0.1 0.1 0.3 0.3 eq_refl eq_refl eq_refl)%float.
  vm_compute. reflexivity.
Defined.

(** C3, as stated, fails: in binary64 the rectangle from (0.1,0.1) to
    (0.3,0.3) on a 1 x 1 page is moved to 0.4 .. 0.6000000000000001, and
    the middle of these two numbers is not the middle of the page. *)
Lemma centering_binary64_off_centre :
  exists vsk' c0 c1 c2 c3,
    fst (execute_sketch (Some small_rect_sketch) None false (world_with [] []))
      = Returned (Some vsk') /\
    centered vsk' = true /\
    page_size (document vsk') = Some (1, 1)%float /\
    bounds (document vsk') = Some (c0, c1, c2, c3) /\
    ~ ((binary64_to_Q c0 + binary64_to_Q c2) / 2 == binary64_to_Q 1 / 2)%Q.
Proof.
  eexists. exists 0.4%float, 0.4%float,
    0x1.3333333333334p-1%float, 0x1.3333333333334p-1%float.
  split; [vm_compute; reflexivity|].
  split; [reflexivity|]. split; [reflexivity|].
  split; [vm_compute; reflexivity|].
  vm_compute. discriminate.
Qed.

(** ** load_sketch_class on concrete scripts *)

Lemma load_sketch_class_first_match_witness :
  exists cls,
    VsketchClass rect_sketch = VsketchClass cls /\
    fst (load_sketch_class two_sketch_script "/home/user/sketches/sketch_a.py"
           (world_with ["/home/user/sketches/sketch_a.py"] ["/home/user/sketches"]))
      = Returned (Some (set_vsketch_cwd "/home/user/sketches" cls)) /\
    vsketch_cwd (set_vsketch_cwd "/home/user/sketches" cls)
      = Some "/home/user/sketches".
Proof.
  pose (w := world_with ["/home/user/sketches/sketch_a.py"] ["/home/user/sketches"]).
  destruct (load_sketch_class_first_match two_sketch_script
              "/home/user/sketches/sketch_a.py" w _ _ eq_refl) as [Hfirst _].
  apply (Hfirst [("__name__", OtherObject "<run_path>");
                 ("Helper", OtherClass "Helper")]
                "RectSketch" (VsketchClass rect_sketch)
                [("FailingSketch", VsketchClass failing_sketch)]).
  - reflexivity.
  - repeat constructor.
  - reflexivity.
Defined.



Lemma load_sketch_class_stderr_witness :
  stderr (snd (load_sketch_class (raising_script (RuntimeError "boom"))
                 "/home/user/sketches/sketch_a.py"
                 (world_with ["/home/user/sketches/sketch_a.py"]
                             ["/home/user/sketches"])))
  = [Traceback (RuntimeError "boom");
     Styled RED true "Could not load script due to previous error." ""].
Proof.
  apply (load_sketch_class_stderr (raising_script (RuntimeError "boom"))
           "/home/user/sketches/sketch_a.py"
           (world_with ["/home/user/sketches/sketch_a.py"] ["/home/user/sketches"])
           (set_cwd "/home/user"
              (entered "/home/user/sketches"
                 (world_with ["/home/user/sketches/sketch_a.py"]
                             ["/home/user/sketches"])))
           (Raised (RuntimeError "boom"))).
  reflexivity.
Defined.


(** ** execute_sketch on concrete classes *)





(** ** Reproducibility on concrete classes *)

Lemma dice_sketch_draw_seeded_only : seeded_only (draw_method dice_sketch).
Proof.
  intros vsk w1 w2 (Henv & Hpy & Hnp). cbn [draw_method dice_sketch].
  rewrite <- Hnp.
  destruct (vsk_random vsk) as [a]; destruct (np_random w1) as [b].
  cbn [agree]. split; [reflexivity|].
  destruct Henv as (Hcwd & He & Hd & Hr & Hre & Hs).
  repeat split; assumption.
Qed.

Lemma execute_sketch_deterministic_witness :
  same_geometry
    (fst (execute_sketch (Some dice_sketch) (Some 7) true (world_with [] [])))
    (fst (execute_sketch (Some dice_sketch) (Some 7) true
            (set_py_random (RngState 99) (set_entropy 5 (world_with [] []))))).
Proof.
  apply (execute_sketch_deterministic dice_sketch 7 true).
  - apply new_vsketch_seeded_only.
  - exact dice_sketch_draw_seeded_only.
  - intros _. apply (seeded_only_pure (fun vsk => vsk)).
  - repeat split; reflexivity.
Defined.

(** C1, as stated, fails: [draw] of the clock sketch uses no randomness at
    all, yet with [finalize] requested two runs under the same seed give
    different documents when the clock differs. *)
Lemma execute_sketch_unseeded_finalize :
  ~ (forall (cls : @SketchClass exact) (S : Z) (F : bool) (w1 w2 : World),
        seeded_only (draw_method cls) ->
        same_environment w1 w2 ->
        same_geometry (fst (execute_sketch (Some cls) (Some S) F w1))
                      (fst (execute_sketch (Some cls) (Some S) F w2))).
Proof.
  intros H.
  specialize (H clock_sketch 7 true (world_with [] [])
                (set_entropy 5 (world_with [] []))).
  assert (Hdraw : seeded_only (draw_method clock_sketch)).
  { apply (seeded_only_pure
             (fun vsk => add_line (@rect exact (10#1) (10#1) (30#1) (50#1))%Q
                           (@size exact (100#1)%Q (100#1)%Q vsk))). }
  assert (Henv : same_environment (world_with [] [])
                   (set_entropy 5 (world_with [] []))).
  { repeat split; reflexivity. }
  specialize (H Hdraw Henv).
  vm_compute in H. discriminate H.
Qed.
